(** * hdfs_file: a shallow embedding of the Ansible module [hdfs_file]
    (library/hdfs_file.py) and of its helper module
    (module_utils/HdfsUtils.py).

    The Python code is Python 2 (the module targets the Ansible of 2017);
    strings are modelled as [String.string], Python [None] as [option],
    exceptions as the [Exn] type, and the module's control flow (which
    leaves [main] through [exit_json] / [fail_json], both of which raise
    [SystemExit]) as a small state-and-exception monad. *)

From Stdlib Require Import String Ascii ZArith List Bool Lia.
From Stdlib Require Import DecimalString.
Import ListNotations.
Open Scope string_scope.

(* ------------------------------------------------------------------ *)
(** ** Python values used by the module *)

(** Python exceptions that the code can raise. *)
Inductive Exn : Type :=
| HdfsUtilsError (msg : string)
| TypeError
| AttributeError
| NotImplementedError
| ValueError
| IndexError
| ImportError.

(** Result of a Python call: a value or a raised exception. *)
Inductive PyRes (A : Type) : Type :=
| POk (a : A)
| PRaise (e : Exn).
Arguments POk {A} a.
Arguments PRaise {A} e.

(** Truthiness of an optional string ([None] and [""] are false). *)
Definition py_truthy (o : option string) : bool :=
  match o with
  | Some s => negb (String.eqb s "")
  | None => false
  end.

(** [str(n)] for a Python int. *)
Definition py_str_Z (n : Z) : string :=
  NilZero.string_of_int (Z.to_int n).

(** [str(x)] for a value that is a string or [None]. *)
Definition py_str_opt (o : option string) : string :=
  match o with Some s => s | None => "None" end.

(** [str(x)] for a value that is an int or [None]. *)
Definition py_str_optZ (o : option Z) : string :=
  match o with Some n => py_str_Z n | None => "None" end.

(** Whitespace as [str.strip] sees it: space, and the codes 9 to 13
    (tab, newline, vertical tab, form feed, carriage return). *)
Definition is_ws (c : ascii) : bool :=
  let n := nat_of_ascii c in Nat.eqb n 32 || (Nat.leb 9 n && Nat.leb n 13).

Fixpoint lstrip (s : string) : string :=
  match s with
  | EmptyString => EmptyString
  | String c r => if is_ws c then lstrip r else s
  end.

Fixpoint rstrip (s : string) : string :=
  match s with
  | EmptyString => EmptyString
  | String c r =>
      let r' := rstrip r in
      if String.eqb r' "" && is_ws c then "" else String c r'
  end.

(** [s.strip()] *)
Definition py_strip (s : string) : string := rstrip (lstrip s).

(** [s.split(sep)] for a non-empty separator: the string is scanned left
    to right; at a position where [sep] starts, the current piece is closed
    and the [length sep - 1] remaining characters of [sep] are skipped. *)
Fixpoint split_go (sep s : string) (skip : nat) (cur : string) : list string :=
  match s with
  | EmptyString => [cur]
  | String c rest =>
      match skip with
      | S k => split_go sep rest k cur
      | O =>
          if String.prefix sep s
          then cur :: split_go sep rest (String.length sep - 1) ""
          else split_go sep rest 0 (cur ++ String c "")
      end
  end.

Definition py_split (s sep : string) : list string := split_go sep s 0 "".

Definition is_digit (c : ascii) : bool :=
  let n := nat_of_ascii c in Nat.leb 48 n && Nat.leb n 57.

Fixpoint all_digits (s : string) : bool :=
  match s with
  | EmptyString => true
  | String c r => is_digit c && all_digits r
  end.

(** A non-empty string of decimal digits. *)
Definition is_digits (s : string) : bool :=
  negb (String.eqb s "") && all_digits s.

(** Value of a string of decimal digits, most significant digit first. *)
Fixpoint dec_value_acc (acc : Z) (s : string) : Z :=
  match s with
  | EmptyString => acc
  | String c r =>
      dec_value_acc (acc * 10 + Z.of_nat (nat_of_ascii c - 48)) r
  end.

Definition dec_value (s : string) : Z := dec_value_acc 0 s.

(** [int(s)] for a [str] in Python 2: surrounding whitespace, an optional
    sign, then decimal digits; anything else raises [ValueError]. *)
Definition py_int (s : string) : PyRes Z :=
  let t := py_strip s in
  match t with
  | String c d =>
      if Ascii.eqb c "-" then
        if is_digits d then POk (- dec_value d)%Z else PRaise ValueError
      else if Ascii.eqb c "+" then
        if is_digits d then POk (dec_value d) else PRaise ValueError
      else if is_digits t then POk (dec_value t) else PRaise ValueError
  | EmptyString => PRaise ValueError
  end.

(* ------------------------------------------------------------------ *)
(** ** Data model *)

(** The dict returned by [stats]: keys state, owner, group, replication. *)
Record Status : Type := mkStatus {
  st_state : string;
  st_owner : option string;
  st_group : option string;
  st_replication : option Z
}.

(** [module.params] as built by [build_module]: every option has no
    declared type, so Ansible hands it over as a [str] (or [None]). *)
Record Params : Type := mkParams {
  p_path : string;
  p_state : string;
  p_owner : option string;
  p_group : option string;
  p_mode : option string;
  p_replication : option string;
  p_recurse : option string;
  p_method : string
}.

(** The three keys [should_modify] is called with. *)
Inductive Attr : Type := AOwner | AGroup | AReplication.

Definition status_get (s : Status) (a : Attr) : string :=
  match a with
  | AOwner => py_str_opt (st_owner s)
  | AGroup => py_str_opt (st_group s)
  | AReplication => py_str_optZ (st_replication s)
  end.

Definition param_get (p : Params) (a : Attr) : option string :=
  match a with
  | AOwner => p_owner p
  | AGroup => p_group p
  | AReplication => p_replication p
  end.

(** [should_modify] (hdfs_file.py, lines 169-176). *)
Definition should_modify (status : Status) (params : Params) (value : Attr) : bool :=
  match param_get params value with
  | None => false
  | Some v =>
      if String.eqb (p_state params) "touch" then true
      else if String.eqb (status_get status value) v then false
      else true
  end.

(** A call of one of the context's action methods, with its arguments. *)
Inductive Call : Type :=
| CMkdir (path : string) (parent : bool)
| CRemove (path : string) (recurse : bool)
| CTouch (path : string)
| CChown (path : string) (owner group recurse : option string)
| CChmod (path : string) (mode recurse : option string)
| CSetrep (path : string) (factor : option string).

(** A context object: its method slots, over a backend state [B]
    (the file system the methods act on). [stats] is a query and does not
    change the backend. *)
Record Ctx (B : Type) : Type := mkCtx {
  ctx_stats : string -> B -> PyRes Status;
  ctx_mkdir : string -> bool -> B -> PyRes B;
  ctx_remove : string -> bool -> B -> PyRes B;
  ctx_touch : string -> B -> PyRes B;
  ctx_chown : string -> option string -> option string -> option string -> B -> PyRes B;
  ctx_chmod : string -> option string -> option string -> B -> PyRes B;
  ctx_setrep : string -> option string -> B -> PyRes B
}.
Arguments mkCtx {B}.
Arguments ctx_stats {B}.
Arguments ctx_mkdir {B}.
Arguments ctx_remove {B}.
Arguments ctx_touch {B}.
Arguments ctx_chown {B}.
Arguments ctx_chmod {B}.
Arguments ctx_setrep {B}.

(** Dispatch of a call to the context's method slot. *)
Definition run_call {B} (ctx : Ctx B) (c : Call) : B -> PyRes B :=
  match c with
  | CMkdir path parent => ctx_mkdir ctx path parent
  | CRemove path recurse => ctx_remove ctx path recurse
  | CTouch path => ctx_touch ctx path
  | CChown path o g r => ctx_chown ctx path o g r
  | CChmod path m r => ctx_chmod ctx path m r
  | CSetrep path f => ctx_setrep ctx path f
  end.

(* ------------------------------------------------------------------ *)
(** ** The module's control flow: state, trace of calls, and exits *)

(** How [main] ends: [exit_json(changed=...)], [fail_json(msg=...)] (both
    raise [SystemExit]), or an uncaught exception. *)
Inductive Stop : Type :=
| SExit (changed : bool)
| SFail (msg : string)
| SRaise (e : Exn).

Inductive Res (A : Type) : Type :=
| Val (a : A)
| Halt (s : Stop).
Arguments Val {A} a.
Arguments Halt {A} s.

Section Engine.

(** The world threaded through [main]: the backend state and the list of
    action methods invoked so far, oldest first. *)
Definition World (B : Type) : Type := (B * list Call)%type.

Definition M (B A : Type) : Type := World B -> Res A * World B.

Definition ret {B A} (a : A) : M B A := fun w => (Val a, w).

Definition bind {B A C} (m : M B A) (k : A -> M B C) : M B C :=
  fun w => match m w with
           | (Val a, w') => k a w'
           | (Halt s, w') => (Halt s, w')
           end.

Definition halt {B A} (s : Stop) : M B A := fun w => (Halt s, w).

Definition exit_json {B A} (changed : bool) : M B A := halt (SExit changed).
Definition fail_json {B A} (msg : string) : M B A := halt (SFail msg).

End Engine.

Notation "x <- m ;; k" := (bind m (fun x => k))
  (at level 61, m at next level, right associativity).
Notation "m ;;; k" := (bind m (fun _ => k))
  (at level 61, right associativity).

Section Reconcile.

Context {B : Type} (context : Ctx B).

(** [context.<method>(...)]: the call is recorded, then run against the
    backend; an exception it raises propagates. *)
Definition invoke (c : Call) : M B unit :=
  fun '(b, tr) =>
    match run_call context c b with
    | POk b' => (Val tt, (b', (tr ++ [c])%list))
    | PRaise e => (Halt (SRaise e), (b, (tr ++ [c])%list))
    end.

(** [context.stats(path)] *)
Definition stats (path : string) : M B Status :=
  fun '(b, tr) =>
    match ctx_stats context path b with
    | POk s => (Val s, (b, tr))
    | PRaise e => (Halt (SRaise e), (b, tr))
    end.

(** [try: m except HdfsUtilsError as e: module.fail_json(msg=e)] *)
Definition try_hdfs (m : M B unit) : M B unit :=
  fun w => match m w with
           | (Halt (SRaise (HdfsUtilsError msg)), w') => (Halt (SFail msg), w')
           | r => r
           end.

(** [resolv_states] (hdfs_file.py, lines 148-166). *)
Definition resolv_states (params : Params) (status : Status) : M B bool :=
  let old := st_state status in
  let new := p_state params in
  let path := p_path params in
  try_hdfs
    (if String.eqb old "absent" && String.eqb new "file" then
       fail_json "no such file, to create new file use state 'touch' instead of 'file'"
     else if String.eqb old "absent" && String.eqb new "directory" then
       invoke (CMkdir path true)
     else if String.eqb new "touch" && (String.eqb old "absent" || String.eqb old "file") then
       invoke (CTouch path)
     else if String.eqb new "absent" && String.eqb old "file" then
       invoke (CRemove path false)
     else if String.eqb new "absent" && String.eqb old "directory" then
       invoke (CRemove path true)
     else
       fail_json ("unsupported state convert '" ++ old ++ "' -> '" ++ new ++ "'")) ;;;
  ret true.

(** The body of [main] once the context is built (hdfs_file.py,
    lines 182 and 192-216). *)
Definition reconcile (params : Params) : M B unit :=
  let path := p_path params in
  status <- stats path ;;
  (* STATE *)
  changed <- (if negb (String.eqb (st_state status) (p_state params))
              then resolv_states params status ;;; ret true
              else ret false) ;;
  if String.eqb (p_state params) "absent" then exit_json changed else
  (* OWNER *)
  changed <- (if should_modify status params AOwner
              then invoke (CChown path (p_owner params) None (p_recurse params)) ;;; ret true
              else ret changed) ;;
  (* GROUP *)
  changed <- (if should_modify status params AGroup
              then invoke (CChown path None (p_group params) (p_recurse params)) ;;; ret true
              else ret changed) ;;
  (* REPLICATION *)
  changed <- (if should_modify status params AReplication
              then invoke (CSetrep path (p_replication params)) ;;; ret true
              else ret changed) ;;
  (* MODE *)
  changed <- (match p_mode params with
              | Some _ => invoke (CChmod path (p_mode params) (p_recurse params)) ;;; ret true
              | None => ret changed
              end) ;;
  exit_json changed.

End Reconcile.

(** A run of [reconcile] from backend state [b] with an empty trace. *)
Definition run_reconcile {B} (ctx : Ctx B) (p : Params) (b : B) : Res unit * (B * list Call) :=
  reconcile ctx p (b, []).

(* ------------------------------------------------------------------ *)
(** ** HdfsContextCli (HdfsUtils.py, lines 44-162) *)

(** [list.insert(i, x)]; past the end it appends. *)
Definition py_list_insert {A} (i : nat) (x : A) (l : list A) : list A :=
  (firstn i l ++ x :: skipn i l)%list.

(** The [-stat] format string of [stats]. *)
Definition stat_format : string := "%F[SEP]%u[SEP]%g[SEP]%r".

Definition stats_absent : Status :=
  {| st_state := "absent"; st_owner := None; st_group := None; st_replication := None |}.

(** Lines 140-149 of [stats], given the return code and the standard
    output of the [-stat] command. ([proc.wait() is not 0] compares a
    small int, which CPython caches, so it is [rc <> 0].) *)
Definition stats_of_output (rc : Z) (out : string) : PyRes Status :=
  if negb (Z.eqb rc 0) then POk stats_absent   (* Assume no such file or directory *)
  else
    match py_split (py_strip out) "[SEP]" with
    | f0 :: f1 :: f2 :: f3 :: _ =>
        let state := if String.eqb f0 "regular file" then "file" else f0 in
        match py_int f3 with
        | POk n => POk {| st_state := state; st_owner := Some f1;
                          st_group := Some f2; st_replication := Some n |}
        | PRaise e => PRaise e
        end
    | _ => PRaise IndexError
    end.

(** The [-chown] target of [chown], line 73:
    [owner if owner else "" + ":" + group if group else ""], which Python
    parses as [owner if owner else (("" + ":" + group) if group else "")]. *)
Definition chown_target (owner group : option string) : string :=
  if py_truthy owner then py_str_opt owner
  else if py_truthy group then "" ++ ":" ++ py_str_opt group
  else "".

Section Cli.

Context {B : Type}.

(** [self.cmd], the path of the CLI. *)
Variable cmd : string.

(** [Popen(cmd, ...)], [communicate()] and [wait()]: the return code,
    standard output and standard error of a command, and the backend
    state after it. *)
Variable exec : list string -> B -> (Z * string * string) * B.

Definition chmod_cmd (path : string) (mode : string) (recurse : option string) : list string :=
  let c := [cmd; "dfs"; "-chmod"; mode; path] in
  if py_truthy recurse then py_list_insert 3 "-R" c else c.

Definition chown_cmd (path : string) (owner group recurse : option string) : list string :=
  let c := [cmd; "dfs"; "-chown"; chown_target owner group; path] in
  if py_truthy recurse then py_list_insert 3 "-R" c else c.

Definition mkdir_cmd (path : string) (parent : bool) : list string :=
  let c := [cmd; "dfs"; "-mkdir"; path] in
  if parent then py_list_insert 3 "-p" c else c.

Definition remove_cmd (path : string) (recurse : bool) : list string :=
  let c := [cmd; "dfs"; "-rm"; path] in
  if recurse then py_list_insert 3 "-r" c else c.

Definition setrep_cmd (path : string) (factor : string) : list string :=
  [cmd; "dfs"; "-setrep"; factor; path].

Definition stats_cmd (path : string) : list string :=
  [cmd; "dfs"; "-stat"; stat_format; path].

Definition touch_cmd (path : string) : list string :=
  [cmd; "dfs"; "-touchz"; path].

(** Run a command; a non-zero return code raises [HdfsUtilsError]. *)
Definition run_checked (name : string) (c : list string) (b : B) : PyRes B :=
  match exec c b with
  | ((rc, _, err), b') =>
      if negb (Z.eqb rc 0)
      then PRaise (HdfsUtilsError ("subprocess " ++ name ++ " stderr: " ++ err))
      else POk b'
  end.

(** [stats]: the query's effect on the backend is not kept. *)
Definition cli_stats (path : string) (b : B) : PyRes Status :=
  match exec (stats_cmd path) b with
  | ((rc, out, _), _) => stats_of_output rc out
  end.

(** An argument [None] in the command list makes [Popen] raise [TypeError]. *)
Definition HdfsContextCli : Ctx B := {|
  ctx_stats := cli_stats;
  ctx_mkdir := fun path parent => run_checked "mkdir" (mkdir_cmd path parent);
  ctx_remove := fun path recurse => run_checked "rm" (remove_cmd path recurse);
  ctx_touch := fun path => run_checked "touchz" (touch_cmd path);
  ctx_chown := fun path owner group recurse =>
                 run_checked "chown" (chown_cmd path owner group recurse);
  ctx_chmod := fun path mode recurse b =>
                 match mode with
                 | Some m => run_checked "chmod" (chmod_cmd path m recurse) b
                 | None => PRaise TypeError
                 end;
  ctx_setrep := fun path factor b =>
                  match factor with
                  | Some f => run_checked "setrep" (setrep_cmd path f) b
                  | None => PRaise TypeError
                  end
|}.

End Cli.

(* ------------------------------------------------------------------ *)
(** ** HdfsCheckMode (HdfsUtils.py, lines 196-226) *)

Section CheckMode.

Context {B : Type}.

(** The instance [inst] after the six [setattr] of [__init__]: every
    action slot returns at once; [stats] is left as it was. *)
Definition neutralize (inst : Ctx B) : Ctx B := {|
  ctx_stats := ctx_stats inst;
  ctx_mkdir := fun _ _ b => POk b;
  ctx_remove := fun _ _ b => POk b;
  ctx_touch := fun _ b => POk b;
  ctx_chown := fun _ _ _ _ b => POk b;
  ctx_chmod := fun _ _ _ b => POk b;
  ctx_setrep := fun _ _ b => POk b
|}.

(** [HdfsCheckMode.__init__(self, inst)] for a context instance (the
    [isinstance] guard passes): it rebinds the slots of [inst] and ends
    with [return (inst)]; [None] would stand for a bare return. *)
Definition HdfsCheckMode___init__ (inst : Ctx B) : option (Ctx B) :=
  Some (neutralize inst).

(** The call [HdfsCheckMode(inst)]: the constructor raises [TypeError]
    when [__init__] returns anything but [None]; otherwise it yields a
    fresh [HdfsCheckMode] object, which has none of the context methods. *)
Definition HdfsCheckMode (inst : Ctx B) : PyRes unit :=
  match HdfsCheckMode___init__ inst with
  | None => POk tt
  | Some _ => PRaise TypeError
  end.

End CheckMode.

(** [main] (hdfs_file.py, lines 179-216), from the choice of the context
    on. [cli] is the context line 185 builds. (The module's import list,
    lines 117-120, does not bring [HdfsContextCli] into scope; the model
    takes the context object as given.) *)
Definition main_model {B} (check_mode : bool) (cli : Ctx B) (params : Params) : M B unit :=
  if String.eqb (p_method params) "command" then
    if check_mode then
      match HdfsCheckMode cli with
      | PRaise e => halt (SRaise e)
      | POk _ => halt (SRaise AttributeError)   (* [context.stats] is missing *)
      end
    else reconcile cli params
  else fail_json "Not yet implemented".

(* ------------------------------------------------------------------ *)
(** ** Module-level execution of HdfsUtils.py *)

#[local] Set Warnings "-register-all".

(** The top-level statements of a Python module, as far as their
    execution at import time goes. *)
Inductive Stmt : Type :=
| SDoc                                   (* a bare string expression *)
| SImport (names : list string)          (* binds the imported names *)
| SClass (name : string) (body : list Stmt)
| SDef (name : string)
| SRaiseStmt (e : Exn)
| SPass.

(** Statements run in order; a class body runs in its own namespace and
    the class name is bound only once the body has finished. *)
Fixpoint exec_stmt (s : Stmt) (env : list string) : PyRes (list string) :=
  match s with
  | SDoc | SPass => POk env
  | SImport names => POk (names ++ env)%list
  | SDef name => POk (name :: env)
  | SRaiseStmt e => PRaise e
  | SClass name body =>
      let fix exec_body (l : list Stmt) (e : list string) : PyRes (list string) :=
          match l with
          | [] => POk e
          | s' :: l' => match exec_stmt s' e with
                        | POk e' => exec_body l' e'
                        | PRaise x => PRaise x
                        end
          end in
      match exec_body body [] with
      | POk _ => POk (name :: env)
      | PRaise x => PRaise x
      end
  end.

Fixpoint exec_block (l : list Stmt) (env : list string) : PyRes (list string) :=
  match l with
  | [] => POk env
  | s :: l' => match exec_stmt s env with
               | POk env' => exec_block l' env'
               | PRaise x => PRaise x
               end
  end.

(** HdfsUtils.py at top level. *)
Definition HdfsUtils_py : list Stmt := [
  SDoc;
  SClass "HdfsUtilsError" [SPass];
  SDoc;
  SImport ["re"];
  SImport ["Popen"; "PIPE"];
  SClass "HdfsContextCli"
    [SDef "__init__"; SDef "chmod"; SDef "chown"; SDef "mkdir";
     SDef "remove"; SDef "setrep"; SDef "stats"; SDef "touch"];
  SDoc;
  SClass "HdfsContextLib" [SRaiseStmt NotImplementedError];
  SDoc;
  SClass "HdfsCheckMode" [SDef "__init__"]
].

(** [from <module> import names]: the module runs in a fresh namespace;
    an exception it raises propagates to the importer, otherwise the names
    are bound in the importer's namespace. *)
Definition import_from (m : list Stmt) (names : list string) (env : list string)
  : PyRes (list string) :=
  match exec_block m [] with
  | PRaise e => PRaise e
  | POk menv =>
      if forallb (fun n => existsb (String.eqb n) menv) names
      then POk (names ++ env)%list
      else PRaise ImportError
  end.

(* ------------------------------------------------------------------ *)
(** ** An in-memory file system with one path

    Used to instantiate the theorems below at concrete inputs: the path is
    absent, or it is a file or directory with an owner, a group and a
    replication factor. Each action takes effect on it; mkdir over a file,
    touch over a directory, and chown or setrep of a missing path fail. *)

Inductive Kind : Type := KFile | KDirectory.

(** The [%F] text of a kind, after [stats] normalised it. *)
Definition kind_name (k : Kind) : string :=
  match k with KFile => "file" | KDirectory => "directory" end.

Record Entry : Type := mkEntry {
  e_kind : Kind;
  e_owner : string;
  e_group : string;
  e_rep : Z
}.

Definition mem_view (b : option Entry) : Status :=
  match b with
  | None => stats_absent
  | Some e => {| st_state := kind_name (e_kind e); st_owner := Some (e_owner e);
                 st_group := Some (e_group e); st_replication := Some (e_rep e) |}
  end.

Definition mem_chown (owner group : option string) (e : Entry) : Entry :=
  {| e_kind := e_kind e;
     e_owner := match owner with Some o => o | None => e_owner e end;
     e_group := match group with Some g => g | None => e_group e end;
     e_rep := e_rep e |}.

Definition mem_ctx : Ctx (option Entry) := {|
  ctx_stats := fun _ b => POk (mem_view b);
  ctx_mkdir := fun _ _ b =>
    match b with
    | None => POk (Some (mkEntry KDirectory "hdfs" "supergroup" 0))
    | Some e => match e_kind e with
                | KDirectory => POk (Some e)
                | KFile => PRaise (HdfsUtilsError "mkdir: File exists")
                end
    end;
  ctx_remove := fun _ _ _ => POk None;
  ctx_touch := fun _ b =>
    match b with
    | None => POk (Some (mkEntry KFile "hdfs" "supergroup" 3))
    | Some e => match e_kind e with
                | KFile => POk (Some e)
                | KDirectory => PRaise (HdfsUtilsError "touchz: Is a directory")
                end
    end;
  ctx_chown := fun _ o g _ b =>
    match b with
    | Some e => POk (Some (mem_chown o g e))
    | None => PRaise (HdfsUtilsError "chown: No such file or directory")
    end;
  ctx_chmod := fun _ _ _ b => POk b;
  ctx_setrep := fun _ f b =>
    match f, b with
    | None, _ => PRaise TypeError
    | Some _, None => PRaise (HdfsUtilsError "setrep: No such file or directory")
    | Some r, Some e =>
        match py_int r with
        | POk n => POk (Some (mkEntry (e_kind e) (e_owner e) (e_group e) n))
        | PRaise _ => PRaise (HdfsUtilsError "setrep: Illegal replication")
        end
    end
|}.

(* ------------------------------------------------------------------ *)
(** ** Readings of the claims used in the statements *)

Definition is_attr_call (c : Call) : bool :=
  match c with CChown _ _ _ _ | CChmod _ _ _ | CSetrep _ _ => true | _ => false end.

Definition is_chown (c : Call) : bool :=
  match c with CChown _ _ _ _ => true | _ => false end.

(** The last call of a trace. *)
Definition last_call (tr : list Call) : option Call := hd_error (rev tr).

(** The calls a touch run makes, as the touch rule describes them: the
    touch itself, then every requested attribute, in the fixed order. *)
Definition touch_expected_calls (p : Params) : list Call :=
  let path := p_path p in
  ([CTouch path]
   ++ (match p_owner p with Some _ => [CChown path (p_owner p) None (p_recurse p)] | None => [] end)
   ++ (match p_group p with Some _ => [CChown path None (p_group p) (p_recurse p)] | None => [] end)
   ++ (match p_replication p with Some _ => [CSetrep path (p_replication p)] | None => [] end)
   ++ (match p_mode p with Some _ => [CChmod path (p_mode p) (p_recurse p)] | None => [] end))%list.

(** The transition table of the specification (old state -> new state). *)
Inductive Transition : Type :=
| TCall (c : Call)      (* the transition is made by this call *)
| TFailNoFile           (* absent -> file: refused *)
| TFailNaming.          (* refused, with both states in the message *)

Definition transition_table (path old new : string) : Transition :=
  if String.eqb old "absent" && String.eqb new "file" then TFailNoFile
  else if String.eqb old "absent" && String.eqb new "directory" then TCall (CMkdir path true)
  else if (String.eqb old "absent" || String.eqb old "file") && String.eqb new "touch"
  then TCall (CTouch path)
  else if String.eqb old "file" && String.eqb new "absent" then TCall (CRemove path false)
  else if String.eqb old "directory" && String.eqb new "absent" then TCall (CRemove path true)
  else TFailNaming.

(** Whether a character occurs in a string. *)
Fixpoint has_char (c : ascii) (s : string) : bool :=
  match s with
  | EmptyString => false
  | String d r => Ascii.eqb c d || has_char c r
  end.

Fixpoint all_ws (s : string) : bool :=
  match s with
  | EmptyString => true
  | String c r => is_ws c && all_ws r
  end.

Definition starts_non_ws (s : string) : bool :=
  match s with
  | EmptyString => true
  | String c _ => negb (is_ws c)
  end.

(** The line [-stat "%F[SEP]%u[SEP]%g[SEP]%r"] prints for an existing
    path, without its line terminator. *)
Definition stat_line (F u g r : string) : string :=
  F ++ "[SEP]" ++ u ++ "[SEP]" ++ g ++ "[SEP]" ++ r.

Definition with_owner (s : Status) (o : string) : Status :=
  mkStatus (st_state s) (Some o) (st_group s) (st_replication s).
Definition with_group (s : Status) (g : string) : Status :=
  mkStatus (st_state s) (st_owner s) (Some g) (st_replication s).
Definition with_replication (s : Status) (n : Z) : Status :=
  mkStatus (st_state s) (st_owner s) (st_group s) (Some n).

(** A context whose backend reflects each action in the next [stats] of
    [path]: [view b] is what [stats] reports, with no owner, group or
    replication when the path is absent; mkdir leaves a directory,
    remove leaves nothing, chown and setrep change their field alone. *)
Record Reflecting {B} (ctx : Ctx B) (path : string) (view : B -> Status) : Prop := {
  refl_stats : forall b, ctx_stats ctx path b = POk (view b);
  refl_absent : forall b, st_state (view b) = "absent" -> view b = stats_absent;
  refl_mkdir : forall b b', ctx_mkdir ctx path true b = POk b' ->
                            st_state (view b') = "directory";
  refl_remove : forall r b b', ctx_remove ctx path r b = POk b' ->
                               st_state (view b') = "absent";
  refl_chown_owner : forall o rec b b', ctx_chown ctx path (Some o) None rec b = POk b' ->
                                        view b' = with_owner (view b) o;
  refl_chown_group : forall g rec b b', ctx_chown ctx path None (Some g) rec b = POk b' ->
                                        view b' = with_group (view b) g;
  refl_setrep : forall f n b b', ctx_setrep ctx path (Some f) b = POk b' ->
                                 py_int f = POk n -> view b' = with_replication (view b) n
}.

(** A status that already has what [p] asks for. *)
Definition meets (p : Params) (s : Status) : Prop :=
  st_state s = p_state p /\
  (p_state p <> "absent" ->
   (forall o, p_owner p = Some o -> st_owner s = Some o) /\
   (forall g, p_group p = Some g -> st_group s = Some g) /\
   (forall r, p_replication p = Some r ->
      exists n, st_replication s = Some n /\ py_str_Z n = r)).

(** The changed flags of two identical runs, the second from the backend
    state the first leaves. *)
Definition two_runs {B} (ctx : Ctx B) (p : Params) (b : B) : Res unit * Res unit :=
  let '(r1, (b1, _)) := run_reconcile ctx p b in
  (r1, fst (run_reconcile ctx p b1)).

(** Replays a trace of calls against the context, stopping at the first
    exception. *)
Fixpoint run_calls {B} (ctx : Ctx B) (cs : list Call) (b : B) : PyRes B :=
  match cs with
  | [] => POk b
  | c :: cs' => match run_call ctx c b with
                | POk b' => run_calls ctx cs' b'
                | PRaise e => PRaise e
                end
  end.

(** The call [main] makes for an attribute (lines 200-210). *)
Definition call_for (p : Params) (a : Attr) : Call :=
  match a with
  | AOwner => CChown (p_path p) (p_owner p) None (p_recurse p)
  | AGroup => CChown (p_path p) None (p_group p) (p_recurse p)
  | AReplication => CSetrep (p_path p) (p_replication p)
  end.

Definition attr_call (p : Params) (s : Status) (a : Attr) : list Call :=
  if should_modify s p a then [call_for p a] else [].

(** The calls of lines 199-214 for a status [s] read before the run. *)
Definition attr_calls (p : Params) (s : Status) : list Call :=
  (attr_call p s AOwner ++ attr_call p s AGroup ++ attr_call p s AReplication
   ++ match p_mode p with
      | Some _ => [CChmod (p_path p) (p_mode p) (p_recurse p)]
      | None => []
      end)%list.

(** The calls of the state step (lines 194-196), [None] when it fails. *)
Definition transition_calls (p : Params) (s : Status) : option (list Call) :=
  if String.eqb (st_state s) (p_state p) then Some []
  else match transition_table (p_path p) (st_state s) (p_state p) with
       | TCall c => Some [c]
       | _ => None
       end.

(** Inputs the theorems are instantiated at: the documentation's examples
    (a directory with owner and group, a touched file, a mode, a removal)
    and an [-stat] run that prints a directory's line. *)
Definition ex_dir : Params :=
  mkParams "/tmp/myfolder" "directory" (Some "myuser") (Some "mygroup") None (Some "2") None "command".
Definition ex_touch : Params :=
  mkParams "/tmp/myfile" "touch" (Some "myuser") None None (Some "2") None "command".
Definition ex_mode : Params :=
  mkParams "/tmp/myfolder" "directory" None None (Some "0755") None (Some "true") "command".
Definition ex_absent : Params :=
  mkParams "/tmp/myfolder" "absent" None None None None None "command".
Definition ex_exec (_ : list string) (u : unit) : (Z * string * string) * unit :=
  ((0%Z, stat_line "directory" "hdfs" "supergroup" "0" ++ String (ascii_of_nat 10) "", ""), u).

(** The path a call acts on. *)
Definition call_path (c : Call) : string :=
  match c with
  | CMkdir p _ | CRemove p _ | CTouch p | CChown p _ _ _ | CChmod p _ _ | CSetrep p _ => p
  end.

(** A call whose string argument is [None]. *)
Definition passes_none (c : Call) : bool :=
  match c with CChmod _ None _ | CSetrep _ None => true | _ => false end.

(** A replication [int] refuses; a CLI that denies everything but reports
    the path absent; a [-stat] line whose replication field is ['-']. *)
Definition ex_badrep : Params :=
  mkParams "/tmp/myfolder" "directory" None None None (Some "x") None "command".
Definition ex_exec_denied (c : list string) (u : unit) : (Z * string * string) * unit :=
  if String.eqb (nth 2 c "") "-stat"
  then ((1%Z, "", "stat: No such file or directory"), u)
  else ((1%Z, "", "mkdir: Permission denied"), u).

(* ------------------------------------------------------------------ *)
(** ** Proof tools *)

(** Case on a string comparison and push the equation into the goal. *)
Ltac eqb_case a b :=
  let E := fresh "E" in
  destruct (String.eqb_spec a b) as [E|E];
  [ first [ subst a | subst b | rewrite E in * | idtac ] | ].

(** Case on the innermost undecided test, string comparisons first. *)
Ltac step :=
  match goal with
  | |- context [String.eqb ?a ?b] => eqb_case a b
  | H : context [String.eqb ?a ?b] |- _ => eqb_case a b
  | |- context [match ?x with _ => _ end] =>
      lazymatch x with
      | context [match _ with _ => _ end] => fail
      | _ => let E := fresh "E" in destruct x eqn:E
      end
  end.

Ltac split_all := repeat (cbn in *; step).

Ltac finish :=
  cbn in *; intuition (subst; cbn in *; try discriminate; try congruence; try reflexivity).

Ltac unfold_main :=
  cbv beta iota zeta delta [run_reconcile reconcile stats bind ret exit_json halt
                            resolv_states try_hdfs invoke fail_json run_call].

Lemma should_modify_touch (s : Status) (p : Params) (a : Attr) :
  p_state p = "touch" ->
  should_modify s p a = match param_get p a with Some _ => true | None => false end.
Proof.
  intros Ht. unfold should_modify. rewrite Ht. now destruct (param_get p a).
Qed.

(* ------------------------------------------------------------------ *)
(** ** Claims about the engine *)

(** C2 (corrected). The owner and the group are applied by separate
    calls: when the owner is to apply, one [chown] call carries the owner
    alone; when the group is to apply, a further [chown] call carries the
    group alone; both pass [recurse]. On a run that completes, these are
    the only [chown] calls, so owner and group both to apply give two. *)
Theorem chown_calls_per_attribute {B} (ctx : Ctx B) (p : Params) (b : B) (s : Status)
  (Hst : p_state p <> "absent") (Hs : ctx_stats ctx (p_path p) b = POk s) :
  let '(r, (_, tr)) := run_reconcile ctx p b in
  forall ch, r = Halt (SExit ch) ->
  filter is_chown tr =
    ((if should_modify s p AOwner then [CChown (p_path p) (p_owner p) None (p_recurse p)] else [])
     ++ (if should_modify s p AGroup then [CChown (p_path p) None (p_group p) (p_recurse p)] else []))%list.
Proof.
  unfold_main. rewrite Hs. split_all; finish.
Qed.

(** C4. For a current state different from the desired one, the
    transition step follows the table: absent -> file is refused;
    absent -> directory calls mkdir with parents; absent or file -> touch
    calls touch; file -> absent removes without recursion;
    directory -> absent removes recursively; every other pair is refused
    with a message that names both states. *)
Theorem resolv_states_table {B} (ctx : Ctx B) (p : Params) (s : Status) (b : B)
  (Hne : st_state s <> p_state p) :
  let '(r, (b', tr)) := resolv_states ctx p s (b, []) in
  match transition_table (p_path p) (st_state s) (p_state p) with
  | TCall c =>
      tr = [c] /\
      (forall b1, run_call ctx c b = POk b1 -> r = Val true /\ b' = b1) /\
      (forall m, run_call ctx c b = PRaise (HdfsUtilsError m) -> r = Halt (SFail m))
  | TFailNoFile => tr = [] /\ b' = b /\ exists msg, r = Halt (SFail msg)
  | TFailNaming =>
      tr = [] /\ b' = b /\
      exists pre mid post, r = Halt (SFail (pre ++ st_state s ++ mid ++ p_state p ++ post))
  end.
Proof.
  unfold transition_table.
  cbv beta iota zeta delta [stats bind ret exit_json halt resolv_states try_hdfs
                            invoke fail_json run_call].
  split_all; finish;
  try (exists "unsupported state convert '", "' -> '", "'"; reflexivity);
  try (eexists; reflexivity).
Qed.

(** C5. With state touch, every attribute that is set is to apply
    whatever the current status; a touch run from an absent path or a file
    that completes reissues the touch and every requested attribute call,
    and reports changed, so repeated identical touch runs do so each time. *)
Theorem touch_reapplies_attributes (p : Params) (Ht : p_state p = "touch") :
  (forall (s : Status) (a : Attr) (v : string),
      param_get p a = Some v -> should_modify s p a = true) /\
  (forall B (ctx : Ctx B) (b : B) (s : Status),
      ctx_stats ctx (p_path p) b = POk s ->
      st_state s = "absent" \/ st_state s = "file" ->
      let '(r, (_, tr)) := run_reconcile ctx p b in
      forall ch, r = Halt (SExit ch) -> ch = true /\ tr = touch_expected_calls p).
Proof.
  split.
  - intros s a v Hv. rewrite should_modify_touch by exact Ht. now rewrite Hv.
  - intros B ctx b s Hs Hold.
    unfold_main. rewrite Hs, !should_modify_touch by exact Ht.
    unfold touch_expected_calls. rewrite Ht.
    destruct Hold as [Hold | Hold]; rewrite Hold; split_all; finish.
Qed.

(** C6. With a mode set and a state other than absent, every run that
    completes ends with a chmod call carrying the mode and [recurse], and
    reports changed; no current mode is consulted, so this holds from any
    backend state, the one left by a previous identical run included. *)
Theorem mode_always_changed {B} (ctx : Ctx B) (p : Params) (m : string) (b : B)
  (Hm : p_mode p = Some m) (Hst : p_state p <> "absent") :
  let '(r, (_, tr)) := run_reconcile ctx p b in
  forall ch, r = Halt (SExit ch) ->
  ch = true /\ last_call tr = Some (CChmod (p_path p) (Some m) (p_recurse p)).
Proof.
  unfold_main. rewrite Hm. split_all; finish.
Qed.

(** C8. With state absent, a run stops after the transition step: it
    calls no chown, setrep or chmod; from an absent path it reports
    unchanged without any call; otherwise, when it completes, it reports
    changed. *)
Theorem absent_skips_attributes {B} (ctx : Ctx B) (p : Params) (b : B) (s : Status)
  (Hst : p_state p = "absent") (Hs : ctx_stats ctx (p_path p) b = POk s) :
  let '(r, (b', tr)) := run_reconcile ctx p b in
  (forall c, In c tr -> is_attr_call c = false) /\
  (st_state s = "absent" -> r = Halt (SExit false) /\ b' = b /\ tr = []) /\
  (forall ch, r = Halt (SExit ch) -> ch = negb (String.eqb (st_state s) "absent")).
Proof.
  unfold_main. rewrite Hst, Hs. split_all; finish.
Qed.

(* ------------------------------------------------------------------ *)
(** ** Claims about HdfsUtils.py *)

(** C9. Running the top level of HdfsUtils.py raises NotImplementedError,
    from the body of class HdfsContextLib; so any [from ... import] of the
    module raises it too and binds none of its names. *)
Theorem HdfsUtils_import_raises :
  exec_block HdfsUtils_py [] = PRaise NotImplementedError /\
  forall names env, import_from HdfsUtils_py names env = PRaise NotImplementedError.
Proof.
  split; [reflexivity | intros; reflexivity].
Qed.

(** C10. [chown] with both an owner and a group (non-empty) builds a
    [-chown] target that is the owner alone; the group is dropped. *)
Theorem chown_owner_hides_group (cmd path o g : string) (recurse : option string)
  (Ho : o <> "") (Hg : g <> "") :
  chown_target (Some o) (Some g) = o /\
  chown_cmd cmd path (Some o) (Some g) recurse =
    ([cmd; "dfs"; "-chown"] ++ (if py_truthy recurse then ["-R"] else []) ++ [o; path])%list.
Proof.
  assert (Ht : chown_target (Some o) (Some g) = o).
  { unfold chown_target, py_truthy. apply String.eqb_neq in Ho. now rewrite Ho. }
  split; [exact Ht|].
  unfold chown_cmd. rewrite Ht. now destruct (py_truthy recurse).
Qed.

(* ------------------------------------------------------------------ *)
(** ** Strings: strip, split and int *)

Lemma str_app_nil_r (s : string) : s ++ "" = s.
Proof. induction s as [|c s IH]; cbn; [reflexivity | now rewrite IH]. Qed.

Lemma str_app_assoc (a b c : string) : (a ++ b) ++ c = a ++ (b ++ c).
Proof. induction a as [|x a IH]; cbn; [reflexivity | now rewrite IH]. Qed.

Lemma digit_not_ws (c : ascii) : is_digit c = true -> is_ws c = false.
Proof.
  unfold is_digit, is_ws. intros H.
  apply andb_true_iff in H as [H1 H2]. apply Nat.leb_le in H1, H2.
  apply orb_false_iff. split.
  - apply Nat.eqb_neq. lia.
  - apply andb_false_iff. right. apply Nat.leb_gt. lia.
Qed.

Lemma digit_neq (c d : ascii) : is_digit c = true -> is_digit d = false -> Ascii.eqb d c = false.
Proof.
  intros Hc Hd. destruct (Ascii.eqb_spec d c) as [<-|]; [congruence | reflexivity].
Qed.

Lemma lstrip_non_ws (s : string) : starts_non_ws s = true -> lstrip s = s.
Proof.
  destruct s as [|c r]; cbn; [reflexivity|].
  intros H. apply negb_true_iff in H. now rewrite H.
Qed.

Lemma starts_non_ws_lbrack (F x : string) :
  starts_non_ws F = true -> starts_non_ws (F ++ String "[" x) = true.
Proof. destruct F; cbn; auto. Qed.

Lemma rstrip_all_ws (w : string) : all_ws w = true -> rstrip w = "".
Proof.
  induction w as [|c w IH]; cbn; [reflexivity|].
  intros H. apply andb_true_iff in H as [Hc Hw]. rewrite IH, Hc by exact Hw. reflexivity.
Qed.

Lemma rstrip_digits (r w : string) :
  all_digits r = true -> all_ws w = true -> rstrip (r ++ w) = r.
Proof.
  intros Hr Hw. induction r as [|c r IH]; cbn in *.
  - now apply rstrip_all_ws.
  - apply andb_true_iff in Hr as [Hc Hr]. rewrite IH by exact Hr.
    rewrite (digit_not_ws c Hc), andb_false_r. reflexivity.
Qed.

Lemma str_app_nonempty (x y : string) : y <> "" -> String.eqb (x ++ y) "" = false.
Proof.
  intros Hy. destruct x; cbn; [now apply String.eqb_neq | reflexivity].
Qed.

Lemma rstrip_app (x y : string) : rstrip y <> "" -> rstrip (x ++ y) = x ++ rstrip y.
Proof.
  intros Hy. induction x as [|c x IH]; cbn; [reflexivity|].
  rewrite IH, str_app_nonempty by exact Hy. reflexivity.
Qed.

Lemma prefix_empty (s : string) : String.prefix "" s = true.
Proof. now destruct s. Qed.

Lemma split_piece (a rest cur : string) :
  has_char "[" a = false ->
  split_go "[SEP]" (a ++ "[SEP]" ++ rest) 0 cur = (cur ++ a) :: split_go "[SEP]" rest 0 "".
Proof.
  revert cur. induction a as [|c a IH]; intros cur Ha.
  - cbn. now rewrite prefix_empty, str_app_nil_r.
  - cbn in Ha. apply orb_false_iff in Ha as [Hc Ha].
    cbn [append split_go String.prefix].
    destruct (ascii_dec "[" c) as [E|_].
    + subst c. discriminate.
    + rewrite IH by exact Ha. now rewrite str_app_assoc.
Qed.

Lemma split_last (a cur : string) :
  has_char "[" a = false -> split_go "[SEP]" a 0 cur = [cur ++ a].
Proof.
  revert cur. induction a as [|c a IH]; intros cur Ha.
  - cbn. now rewrite str_app_nil_r.
  - cbn in Ha. apply orb_false_iff in Ha as [Hc Ha].
    cbn [split_go String.prefix].
    destruct (ascii_dec "[" c) as [E|_].
    + subst c. discriminate.
    + rewrite IH by exact Ha. now rewrite str_app_assoc.
Qed.

Lemma digits_no_lbrack (r : string) : all_digits r = true -> has_char "[" r = false.
Proof.
  induction r as [|c r IH]; cbn [has_char all_digits]; [reflexivity|].
  intros H. apply andb_true_iff in H as [Hc Hr].
  rewrite (digit_neq c "[" Hc eq_refl), IH by exact Hr. reflexivity.
Qed.

Lemma py_strip_digits (r : string) : all_digits r = true -> py_strip r = r.
Proof.
  intros Hr. unfold py_strip.
  assert (Hl : lstrip r = r).
  { apply lstrip_non_ws. destruct r as [|c r']; cbn in *; [reflexivity|].
    apply andb_true_iff in Hr as [Hc _]. now rewrite digit_not_ws. }
  rewrite Hl. rewrite <- (str_app_nil_r r) at 1. now apply rstrip_digits.
Qed.

Lemma py_int_digits (r : string) : is_digits r = true -> py_int r = POk (dec_value r).
Proof.
  intros H. unfold is_digits in H. apply andb_true_iff in H as [Hne Hr].
  unfold py_int. rewrite py_strip_digits by exact Hr.
  destruct r as [|c r']; [discriminate|].
  pose proof Hr as Hr'. cbn in Hr'. apply andb_true_iff in Hr' as [Hc _].
  rewrite (Ascii.eqb_sym c "-"), (Ascii.eqb_sym c "+").
  rewrite (digit_neq c "-" Hc eq_refl), (digit_neq c "+" Hc eq_refl).
  unfold is_digits. rewrite Hne, Hr. reflexivity.
Qed.

Lemma py_strip_stat_line (F u g r w : string) :
  starts_non_ws F = true -> is_digits r = true -> all_ws w = true ->
  py_strip (stat_line F u g r ++ w) = stat_line F u g r.
Proof.
  intros HF Hr Hw. unfold is_digits in Hr. apply andb_true_iff in Hr as [Hne Hr].
  unfold py_strip, stat_line.
  rewrite lstrip_non_ws.
  2:{ rewrite str_app_assoc. apply starts_non_ws_lbrack. exact HF. }
  set (X := F ++ "[SEP]" ++ u ++ "[SEP]" ++ g ++ "[SEP]").
  assert (E1 : F ++ "[SEP]" ++ u ++ "[SEP]" ++ g ++ "[SEP]" ++ r = X ++ r).
  { unfold X. now rewrite !str_app_assoc. }
  rewrite E1, str_app_assoc, rstrip_app, rstrip_digits; try assumption; [reflexivity|].
  rewrite rstrip_digits by assumption. intros E. rewrite E in Hne. discriminate.
Qed.

(** C7. [stats] raises nothing when the query fails: a non-zero return
    code gives the record with state absent and owner, group and
    replication [None]. When the query succeeds and prints the four-field
    line of the format (fields free of "[", the state not starting with
    white space, the replication a string of digits, then any trailing
    white space), it gives all four fields, "regular file" renamed to
    "file" and the replication as an integer. *)
Theorem stats_absent_or_populated {B} (cmd path : string)
  (exec : list string -> B -> (Z * string * string) * B) (b : B)
  (rc : Z) (out err : string) (b' : B)
  (Hexec : exec (stats_cmd cmd path) b = ((rc, out, err), b')) :
  (rc <> 0%Z -> cli_stats cmd exec path b = POk stats_absent) /\
  (forall F u g r w,
     rc = 0%Z -> out = stat_line F u g r ++ w ->
     has_char "[" F = false -> has_char "[" u = false -> has_char "[" g = false ->
     starts_non_ws F = true -> is_digits r = true -> all_ws w = true ->
     cli_stats cmd exec path b =
       POk {| st_state := if String.eqb F "regular file" then "file" else F;
              st_owner := Some u; st_group := Some g;
              st_replication := Some (dec_value r) |}).
Proof.
  unfold cli_stats. rewrite Hexec. unfold stats_of_output. split.
  - intros Hrc. apply Z.eqb_neq in Hrc. now rewrite Hrc.
  - intros F u g r w Hrc Hout HF Hu Hg HFw Hr Hw.
    subst rc out. cbn [Z.eqb negb].
    rewrite py_strip_stat_line by assumption.
    unfold py_split, stat_line.
    rewrite split_piece, split_piece, split_piece, split_last by
      (try assumption; apply digits_no_lbrack;
       unfold is_digits in Hr; apply andb_true_iff in Hr as [_ Hr]; exact Hr).
    cbn [append]. rewrite py_int_digits by exact Hr. reflexivity.
Qed.

(* ------------------------------------------------------------------ *)
(** ** Two runs in succession *)

Lemma completed_run_trace {B} (ctx : Ctx B) (p : Params) (b : B) (s : Status)
  (Hs : ctx_stats ctx (p_path p) b = POk s) :
  let '(r, (b', tr)) := run_reconcile ctx p b in
  forall ch, r = Halt (SExit ch) ->
  run_calls ctx tr b = POk b' /\
  exists tc, transition_calls p s = Some tc /\
  tr = (tc ++ (if String.eqb (p_state p) "absent" then [] else attr_calls p s))%list.
Proof.
  unfold_main. unfold transition_calls, transition_table, attr_calls, attr_call, call_for.
  rewrite Hs.
  split_all; finish;
  repeat match goal with E : ?x = POk _ |- context [?x] => rewrite E end;
  try reflexivity; try (eexists; split; reflexivity).
Qed.

Lemma run_calls_app {B} (ctx : Ctx B) (l1 l2 : list Call) (b : B) :
  run_calls ctx (l1 ++ l2) b =
  match run_calls ctx l1 b with POk b' => run_calls ctx l2 b' | PRaise e => PRaise e end.
Proof.
  revert b; induction l1 as [|c l1 IH]; intros b; cbn; [reflexivity|].
  destruct (run_call ctx c b); [apply IH|reflexivity].
Qed.

Lemma should_modify_status_get (v v' : Status) (p : Params) (a : Attr) :
  status_get v a = status_get v' a -> should_modify v p a = should_modify v' p a.
Proof. intros E. unfold should_modify. now rewrite E. Qed.

Section Replay.
Context {B} (ctx : Ctx B) (path : string) (view : B -> Status).
Hypothesis HR : Reflecting ctx path view.
Context (p : Params).
Hypothesis Hpath : p_path p = path.
Hypothesis Hnt : p_state p <> "touch".
Hypothesis Hrep : forall r, p_replication p = Some r ->
  exists n, py_int r = POk n /\ py_str_Z n = r.

Lemma replay_attr_call (s : Status) (a : Attr) (rest : list Call) (b b2 : B) :
  run_calls ctx (attr_call p s a ++ rest) b = POk b2 ->
  exists b1, run_calls ctx rest b1 = POk b2 /\
    st_state (view b1) = st_state (view b) /\
    ((should_modify s p a = false -> should_modify (view b) p a = false) ->
     should_modify (view b1) p a = false) /\
    (forall a', a' <> a -> status_get (view b1) a' = status_get (view b) a').
Proof.
  unfold attr_call. destruct (should_modify s p a) eqn:E.
  2:{ intros H. exists b. repeat split; auto. }
  cbn [app run_calls]. destruct (run_call ctx (call_for p a) b) as [b1|] eqn:Ec;
    [|discriminate].
  intros H. exists b1. split; [exact H|].
  apply String.eqb_neq in Hnt.
  unfold should_modify in E |- *.
  destruct a; cbn [param_get call_for run_call] in E, Ec |- *; rewrite Hpath in Ec.
  - destruct (p_owner p) as [o|]; [|discriminate].
    rewrite (refl_chown_owner _ _ _ HR _ _ _ _ Ec). cbn.
    rewrite Hnt, String.eqb_refl.
    split; [reflexivity|split; [intros _; reflexivity|intros [] ?; cbn; congruence]].
  - destruct (p_group p) as [g|]; [|discriminate].
    rewrite (refl_chown_group _ _ _ HR _ _ _ _ Ec). cbn.
    rewrite Hnt, String.eqb_refl.
    split; [reflexivity|split; [intros _; reflexivity|intros [] ?; cbn; congruence]].
  - destruct (p_replication p) as [r|] eqn:Er; [|discriminate].
    destruct (Hrep r eq_refl) as (n & Hn & Hs).
    rewrite (refl_setrep _ _ _ HR _ _ _ _ Ec Hn). cbn.
    rewrite Hs, Hnt, String.eqb_refl.
    split; [reflexivity|split; [intros _; reflexivity|intros [] ?; cbn; congruence]].
Qed.

Lemma replay_attr_calls (s : Status) (b b2 : B)
  (Hmode : p_mode p = None)
  (Hpre : forall a, should_modify s p a = false -> should_modify (view b) p a = false)
  (Hrun : run_calls ctx (attr_calls p s) b = POk b2) :
  st_state (view b2) = st_state (view b) /\ forall a, should_modify (view b2) p a = false.
Proof.
  unfold attr_calls in Hrun. rewrite Hmode in Hrun. cbv iota in Hrun.
  rewrite app_nil_r in Hrun.
  apply replay_attr_call in Hrun as (b1 & Hrun & S1 & M1 & F1).
  apply replay_attr_call in Hrun as (b1' & Hrun & S2 & M2 & F2).
  rewrite <- (app_nil_r (attr_call p s AReplication)) in Hrun.
  apply replay_attr_call in Hrun as (b1'' & Hrun & S3 & M3 & F3).
  cbn in Hrun. injection Hrun as <-.
  split; [congruence|].
  specialize (M1 (Hpre AOwner)).
  assert (M2' : should_modify (view b1') p AGroup = false).
  { apply M2. intros E. rewrite (should_modify_status_get _ (view b)).
    - now apply Hpre.
    - apply F1. discriminate. }
  assert (M3' : should_modify (view b1'') p AReplication = false).
  { apply M3. intros E. rewrite (should_modify_status_get _ (view b)).
    - now apply Hpre.
    - rewrite F2 by discriminate. apply F1. discriminate. }
  intros [].
  - rewrite (should_modify_status_get _ (view b1)); [exact M1|].
    rewrite F3, F2 by discriminate. reflexivity.
  - rewrite (should_modify_status_get _ (view b1')); [exact M2'|].
    rewrite F3 by discriminate. reflexivity.
  - exact M3'.
Qed.

End Replay.

Lemma should_modify_none_meets (v : Status) (p : Params)
  (Hnt : p_state p <> "touch")
  (Ho : p_owner p <> Some "None") (Hg : p_group p <> Some "None")
  (Hrep : forall r, p_replication p = Some r -> exists n, py_int r = POk n /\ py_str_Z n = r)
  (Hst : st_state v = p_state p) (Hsm : forall a, should_modify v p a = false) :
  meets p v.
Proof.
  split; [exact Hst|intros _].
  apply String.eqb_neq in Hnt.
  pose proof (Hsm AOwner) as Mo; pose proof (Hsm AGroup) as Mg;
  pose proof (Hsm AReplication) as Mr.
  unfold should_modify in Mo, Mg, Mr; cbn [param_get status_get] in Mo, Mg, Mr.
  rewrite Hnt in Mo, Mg, Mr.
  split; [|split].
  - intros o Eo. rewrite Eo in Mo. destruct (String.eqb_spec (py_str_opt (st_owner v)) o) as [E|];
      [|discriminate].
    destruct (st_owner v); cbn in E; congruence.
  - intros g Eg. rewrite Eg in Mg. destruct (String.eqb_spec (py_str_opt (st_group v)) g) as [E|];
      [|discriminate].
    destruct (st_group v); cbn in E; congruence.
  - intros r Er. rewrite Er in Mr.
    destruct (String.eqb_spec (py_str_optZ (st_replication v)) r) as [E|]; [|discriminate].
    destruct (st_replication v) as [n|]; cbn in E.
    + exists n. split; [reflexivity|exact E].
    + destruct (Hrep r Er) as (n & Hn & _). subst r. vm_compute in Hn. discriminate.
Qed.

Lemma should_modify_absent_none (p : Params)
  (Ho : p_owner p <> Some "None") (Hg : p_group p <> Some "None")
  (Hrep : forall r, p_replication p = Some r -> exists n, py_int r = POk n /\ py_str_Z n = r)
  (a : Attr) (v : Status) :
  should_modify stats_absent p a = false -> should_modify v p a = false.
Proof.
  unfold should_modify. destruct (param_get p a) as [x|] eqn:Ex; [|reflexivity].
  destruct (String.eqb (p_state p) "touch"); [discriminate|].
  destruct (String.eqb_spec (status_get stats_absent a) x) as [E|]; [|discriminate].
  destruct a; cbn in Ex, E; subst x.
  - contradiction.
  - contradiction.
  - destruct (Hrep _ Ex) as (n & Hn & _). vm_compute in Hn. discriminate.
Qed.

Ltac old_state_cases H o :=
  repeat match type of H with
         | context [String.eqb o ?x] =>
             let E := fresh "E" in destruct (String.eqb_spec o x) as [E|E]; cbn in H
         end.

Lemma first_run_meets {B} (ctx : Ctx B) (path : string) (view : B -> Status)
  (HR : Reflecting ctx path view) (p : Params) (b1 b2 : B) (ch1 : bool) (tr1 : list Call)
  (Hpath : p_path p = path)
  (Hst : p_state p = "file" \/ p_state p = "directory" \/ p_state p = "absent")
  (Hmode : p_mode p = None)
  (Ho : p_owner p <> Some "None") (Hg : p_group p <> Some "None")
  (Hrep : forall r, p_replication p = Some r -> exists n, py_int r = POk n /\ py_str_Z n = r)
  (Hrun : run_reconcile ctx p b1 = (Halt (SExit ch1), (b2, tr1))) :
  meets p (view b2).
Proof.
  subst path.
  pose proof (completed_run_trace ctx p b1 (view b1) (refl_stats _ _ _ HR b1)) as T.
  rewrite Hrun in T. destruct (T ch1 eq_refl) as (Hcalls & tc & Htc & ->). clear T Hrun.
  rewrite run_calls_app in Hcalls.
  destruct (run_calls ctx tc b1) as [bm|] eqn:Etc; [|discriminate].
  unfold transition_calls, transition_table in Htc.
  assert (Hnt : p_state p <> "touch") by (intros E; rewrite E in Hst; intuition discriminate).
  destruct Hst as [Hs|[Hs|Hs]]; rewrite Hs in Htc, Hcalls; cbn in Hcalls.
  - (* file: only from a file *)
    old_state_cases Htc (st_state (view b1)); try discriminate.
    injection Htc as <-. injection Etc as <-.
    destruct (replay_attr_calls ctx (p_path p) view HR p eq_refl Hnt Hrep (view b1) b1 b2
                Hmode (fun a H => H) Hcalls) as [S M].
    apply should_modify_none_meets; auto. congruence.
  - (* directory: from a directory, or created from nothing *)
    old_state_cases Htc (st_state (view b1)); try discriminate.
    + injection Htc as <-. injection Etc as <-.
      destruct (replay_attr_calls ctx (p_path p) view HR p eq_refl Hnt Hrep (view b1) b1 b2
                  Hmode (fun a H => H) Hcalls) as [S M].
      apply should_modify_none_meets; auto. congruence.
    + injection Htc as <-. cbn in Etc.
      destruct (ctx_mkdir ctx (p_path p) true b1) as [bm'|] eqn:Em; [|discriminate].
      injection Etc as Ebm. subst bm.
      rewrite (refl_absent _ _ _ HR b1 E0) in Hcalls.
      destruct (replay_attr_calls ctx (p_path p) view HR p eq_refl Hnt Hrep stats_absent bm' b2
                  Hmode (fun a H => should_modify_absent_none p Ho Hg Hrep a (view bm') H)
                  Hcalls) as [S M].
      apply should_modify_none_meets; auto.
      rewrite S, Hs. exact (refl_mkdir _ _ _ HR _ _ Em).
  - (* absent: nothing, or the path removed *)
    injection Hcalls as <-.
    split; [|rewrite Hs; intros []; reflexivity].
    rewrite Hs.
    old_state_cases Htc (st_state (view b1)); try discriminate;
      injection Htc as <-; cbn in Etc; try (injection Etc as <-; exact E).
    + destruct (ctx_remove ctx (p_path p) false b1) eqn:Er; [|discriminate].
      injection Etc as <-. exact (refl_remove _ _ _ HR _ _ _ Er).
    + destruct (ctx_remove ctx (p_path p) true b1) eqn:Er; [|discriminate].
      injection Etc as <-. exact (refl_remove _ _ _ HR _ _ _ Er).
Qed.

Lemma meets_second_run_unchanged {B} (ctx : Ctx B) (path : string) (view : B -> Status)
  (HR : Reflecting ctx path view) (p : Params) (b : B)
  (Hpath : p_path p = path) (Hmode : p_mode p = None) (Hnt : p_state p <> "touch")
  (Hm : meets p (view b)) :
  fst (run_reconcile ctx p b) = Halt (SExit false).
Proof.
  destruct Hm as [Hs Hattr].
  unfold_main. rewrite Hpath, (refl_stats _ _ _ HR), Hmode, Hs, String.eqb_refl.
  cbn -[should_modify].
  destruct (String.eqb_spec (p_state p) "absent") as [|Hna]; [reflexivity|].
  destruct (Hattr Hna) as (Ho & Hg & Hr).
  unfold should_modify; cbn [param_get status_get].
  apply String.eqb_neq in Hnt. rewrite Hnt.
  destruct (p_owner p) as [o|]; [rewrite (Ho o eq_refl); cbn; rewrite String.eqb_refl|];
  (destruct (p_group p) as [g|]; [rewrite (Hg g eq_refl); cbn; rewrite String.eqb_refl|]);
  (destruct (p_replication p) as [r|];
   [destruct (Hr r eq_refl) as (n & -> & <-); cbn; rewrite String.eqb_refl|]);
  reflexivity.
Qed.

Lemma mem_reflecting (path : string) : Reflecting mem_ctx path mem_view.
Proof.
  constructor; cbn.
  - reflexivity.
  - intros [[[] o g r]|]; cbn; [discriminate|discriminate|reflexivity].
  - intros [[[] o g r]|] b' H; cbn in H; try discriminate; injection H as <-; reflexivity.
  - intros r b b' H. injection H as <-. reflexivity.
  - intros o rec [e|] b' H; [injection H as <-; reflexivity|discriminate].
  - intros g rec [e|] b' H; [injection H as <-; reflexivity|discriminate].
  - intros f n [e|] b' H Hn; [|discriminate].
    rewrite Hn in H. injection H as <-. reflexivity.
Qed.

(** C3 (corrected). Against a context whose backend reflects each action
    in the next [stats], a run for a state among file, directory and
    absent, with no mode, no owner or group spelled ["None"], and a
    replication written the way [str] prints its value, that completes
    leaves the backend where an identical second run completes with
    changed=false. *)
Theorem second_run_unchanged {B} (ctx : Ctx B) (path : string) (view : B -> Status)
  (HR : Reflecting ctx path view) (p : Params) (b b1 : B) (ch1 : bool) (tr1 : list Call)
  (Hpath : p_path p = path)
  (Hst : p_state p = "file" \/ p_state p = "directory" \/ p_state p = "absent")
  (Hmode : p_mode p = None)
  (Ho : p_owner p <> Some "None") (Hg : p_group p <> Some "None")
  (Hrep : forall r, p_replication p = Some r -> exists n, py_int r = POk n /\ py_str_Z n = r)
  (Hrun : run_reconcile ctx p b = (Halt (SExit ch1), (b1, tr1))) :
  fst (run_reconcile ctx p b1) = Halt (SExit false).
Proof.
  apply (meets_second_run_unchanged ctx path view HR p b1 Hpath Hmode).
  - intros E. rewrite E in Hst. intuition discriminate.
  - exact (first_run_meets ctx path view HR p b b1 ch1 tr1 Hpath Hst Hmode Ho Hg Hrep Hrun).
Qed.

Lemma second_run_unchanged_witness :
  run_reconcile mem_ctx ex_dir None =
    (Halt (SExit true),
     (Some (mkEntry KDirectory "myuser" "mygroup" 2),
      [CMkdir "/tmp/myfolder" true; CChown "/tmp/myfolder" (Some "myuser") None None;
       CChown "/tmp/myfolder" None (Some "mygroup") None; CSetrep "/tmp/myfolder" (Some "2")]))
  /\ fst (run_reconcile mem_ctx ex_dir (Some (mkEntry KDirectory "myuser" "mygroup" 2)))
     = Halt (SExit false).
Proof.
  split; [vm_compute; reflexivity|].
  apply (second_run_unchanged mem_ctx "/tmp/myfolder" mem_view (mem_reflecting "/tmp/myfolder")
           ex_dir None _ true
           [CMkdir "/tmp/myfolder" true; CChown "/tmp/myfolder" (Some "myuser") None None;
            CChown "/tmp/myfolder" None (Some "mygroup") None;
            CSetrep "/tmp/myfolder" (Some "2")]).
  - reflexivity.
  - right; left; reflexivity.
  - reflexivity.
  - discriminate.
  - discriminate.
  - intros r E. injection E as <-. exists 2%Z. split; reflexivity.
  - vm_compute. reflexivity.
Defined.

(** C3, counterexample. Runs that report changed=true the second time as
    well: a mode (always applied), a replication ["03"] (its value prints
    as ["3"]), and an owner ["None"] (equal to [str(None)] of a path that
    does not exist yet, so not applied on creation). *)
Lemma second_run_changed_cex :
  two_runs mem_ctx
    (mkParams "/tmp/myfolder" "directory" None None (Some "0755") None None "command") None
    = (Halt (SExit true), Halt (SExit true)) /\
  two_runs mem_ctx
    (mkParams "/tmp/myfile" "file" None None None (Some "03") None "command")
    (Some (mkEntry KFile "hdfs" "supergroup" 3))
    = (Halt (SExit true), Halt (SExit true)) /\
  two_runs mem_ctx
    (mkParams "/tmp/myfolder" "directory" (Some "None") None None None None "command") None
    = (Halt (SExit true), Halt (SExit true)).
Proof. vm_compute. repeat split. Qed.

(** C2, counterexample. Creating a directory with an owner and a group
    makes two [chown] calls. *)
Lemma chown_two_calls_cex :
  filter is_chown (snd (snd (run_reconcile mem_ctx ex_dir None))) =
    [CChown "/tmp/myfolder" (Some "myuser") None None;
     CChown "/tmp/myfolder" None (Some "mygroup") None].
Proof. vm_compute. reflexivity. Qed.

Lemma chown_calls_per_attribute_witness :
  p_state ex_dir <> "absent" /\
  ctx_stats mem_ctx (p_path ex_dir) None = POk stats_absent /\
  filter is_chown (snd (snd (run_reconcile mem_ctx ex_dir None))) =
    [CChown "/tmp/myfolder" (Some "myuser") None None;
     CChown "/tmp/myfolder" None (Some "mygroup") None].
Proof.
  split; [vm_compute; discriminate|split; [reflexivity|]].
  pose proof (chown_calls_per_attribute mem_ctx ex_dir None stats_absent
                ltac:(vm_compute; discriminate) eq_refl) as T.
  vm_compute in T. vm_compute. exact (T true eq_refl).
Defined.

Lemma resolv_states_table_witness :
  st_state stats_absent <> p_state ex_dir /\
  resolv_states mem_ctx ex_dir stats_absent (None, []) =
    (Val true, (Some (mkEntry KDirectory "hdfs" "supergroup" 0),
                [CMkdir "/tmp/myfolder" true])).
Proof.
  split; [vm_compute; discriminate|].
  pose proof (resolv_states_table mem_ctx ex_dir stats_absent None ltac:(vm_compute; discriminate)) as T.
  vm_compute in T. destruct T as (T1 & T2 & _).
  destruct (T2 _ eq_refl) as [E1 E2]. vm_compute. reflexivity.
Defined.

Lemma touch_reapplies_attributes_witness :
  p_state ex_touch = "touch" /\
  fst (run_reconcile mem_ctx ex_touch (Some (mkEntry KFile "myuser" "g" 2))) = Halt (SExit true) /\
  snd (snd (run_reconcile mem_ctx ex_touch (Some (mkEntry KFile "myuser" "g" 2)))) =
    touch_expected_calls ex_touch.
Proof.
  split; [reflexivity|].
  destruct (touch_reapplies_attributes ex_touch eq_refl) as [_ T].
  specialize (T _ mem_ctx (Some (mkEntry KFile "myuser" "g" 2)) _ eq_refl
               ltac:(right; reflexivity)).
  vm_compute in T. destruct (T true eq_refl) as [_ E].
  vm_compute. split; reflexivity.
Defined.

Lemma mode_always_changed_witness :
  p_mode ex_mode = Some "0755" /\ p_state ex_mode <> "absent" /\
  fst (run_reconcile mem_ctx ex_mode None) = Halt (SExit true) /\
  last_call (snd (snd (run_reconcile mem_ctx ex_mode None))) =
    Some (CChmod "/tmp/myfolder" (Some "0755") (Some "true")).
Proof.
  split; [reflexivity|split; [vm_compute; discriminate|]].
  pose proof (mode_always_changed mem_ctx ex_mode "0755" None eq_refl ltac:(vm_compute; discriminate)) as T.
  vm_compute in T. destruct (T true eq_refl) as [_ E].
  vm_compute. split; reflexivity.
Defined.

Lemma absent_skips_attributes_witness :
  p_state ex_absent = "absent" /\
  run_reconcile mem_ctx ex_absent (Some (mkEntry KDirectory "hdfs" "supergroup" 0)) =
    (Halt (SExit true), (None, [CRemove "/tmp/myfolder" true])).
Proof.
  split; [reflexivity|].
  pose proof (absent_skips_attributes mem_ctx ex_absent
                (Some (mkEntry KDirectory "hdfs" "supergroup" 0)) _ eq_refl eq_refl) as T.
  vm_compute in T. destruct T as (_ & _ & T3).
  specialize (T3 true eq_refl). vm_compute. reflexivity.
Defined.

Lemma chown_owner_hides_group_witness :
  "myuser" <> "" /\ "mygroup" <> "" /\
  chown_cmd "/bin/hdfs" "/tmp/f" (Some "myuser") (Some "mygroup") None =
    ["/bin/hdfs"; "dfs"; "-chown"; "myuser"; "/tmp/f"].
Proof.
  split; [vm_compute; discriminate|split; [vm_compute; discriminate|]].
  destruct (chown_owner_hides_group "/bin/hdfs" "/tmp/f" "myuser" "mygroup" None
              ltac:(vm_compute; discriminate) ltac:(vm_compute; discriminate)) as [_ E].
  rewrite E. reflexivity.
Defined.

Lemma stats_absent_or_populated_witness :
  ex_exec (stats_cmd "/bin/hdfs" "/tmp/myfolder") tt =
    ((0%Z, stat_line "directory" "hdfs" "supergroup" "0" ++ String (ascii_of_nat 10) "", ""), tt)
  /\ cli_stats "/bin/hdfs" ex_exec "/tmp/myfolder" tt =
     POk {| st_state := "directory"; st_owner := Some "hdfs"; st_group := Some "supergroup";
            st_replication := Some 0%Z |}.
Proof.
  split; [reflexivity|].
  destruct (stats_absent_or_populated "/bin/hdfs" "/tmp/myfolder" ex_exec tt _ _ _ _ eq_refl)
    as [_ T].
  rewrite (T "directory" "hdfs" "supergroup" "0" (String (ascii_of_nat 10) ""));
    reflexivity.
Defined.

(** C1 (code bug). In check mode, with the command method, [main] stops
    with TypeError right after building its context: [HdfsCheckMode]'s
    [__init__] returns [inst], which a constructor may not do. No call
    reaches the backend and no changed flag is reported, whatever a real
    run would report. *)
Theorem check_mode_raises {B} (ctx : Ctx B) (p : Params) (w : World B)
  (Hm : p_method p = "command") :
  main_model true ctx p w = (Halt (SRaise TypeError), w).
Proof. unfold main_model. rewrite Hm. reflexivity. Qed.

Lemma check_mode_raises_witness :
  p_method ex_dir = "command" /\
  main_model true mem_ctx ex_dir (None, []) = (Halt (SRaise TypeError), (None, [])) /\
  fst (main_model false mem_ctx ex_dir (None, [])) = Halt (SExit true).
Proof.
  split; [reflexivity|split].
  - exact (check_mode_raises mem_ctx ex_dir (None, []) eq_refl).
  - vm_compute. reflexivity.
Defined.

(* ------------------------------------------------------------------ *)
(** ** Further properties of the code *)

(** A run that completes reports changed exactly when it made at least one
    call on the context: every branch that sets [changed] makes a call,
    and every call sets it. *)
Theorem completed_run_changed_iff_calls {B} (ctx : Ctx B) (p : Params) (b : B) :
  let '(r, (_, tr)) := run_reconcile ctx p b in
  forall ch, r = Halt (SExit ch) -> ch = negb (Nat.eqb (length tr) 0).
Proof.
  unfold_main. split_all; finish.
Qed.

(** Whatever its outcome, a run calls the context on [params["path"]]
    only. *)
Theorem calls_on_path {B} (ctx : Ctx B) (p : Params) (b : B) :
  Forall (fun c => call_path c = p_path p) (snd (snd (run_reconcile ctx p b))).
Proof.
  unfold_main. split_all; repeat constructor.
Qed.

(** Whatever its outcome, a run never calls [chmod] with no mode nor
    [setrep] with no factor (the arguments for which [Popen] would raise
    [TypeError]): [chmod] is guarded by [mode is not None], and [setrep]
    by [should_modify], which is false for an unset replication. *)
Theorem no_none_argument {B} (ctx : Ctx B) (p : Params) (b : B) :
  Forall (fun c => passes_none c = false) (snd (snd (run_reconcile ctx p b))).
Proof.
  unfold_main. split_all;
  rewrite Forall_forall; intros c Hc; cbn in Hc;
  repeat destruct Hc as [<-|Hc]; try contradiction; cbn; try reflexivity;
  match goal with
  | E : should_modify _ _ AReplication = true |- _ =>
      unfold should_modify in E; cbn in E; destruct (p_replication p);
      [reflexivity|discriminate]
  end.
Qed.

(** The context [HdfsCheckMode.__init__] builds, [inst] with its six
    action methods replaced by no-ops, leaves the backend as it was on any
    run; and when a real run from the same backend state completes, the
    run on the neutralized context completes too, with the same changed
    flag and the same calls. *)
Theorem check_mode_context_frame {B} (ctx : Ctx B) (p : Params) (b : B) :
  let '(r, (b', tr)) := run_reconcile (neutralize ctx) p b in
  b' = b /\
  (forall ch b1 tr1, run_reconcile ctx p b = (Halt (SExit ch), (b1, tr1)) ->
     r = Halt (SExit ch) /\ tr = tr1).
Proof.
  unfold_main. cbn [neutralize ctx_stats ctx_mkdir ctx_remove ctx_touch ctx_chown
                    ctx_chmod ctx_setrep].
  split_all; finish.
Qed.

(** An [HdfsUtilsError] ends the run uncaught (not through [fail_json])
    only when [stats] raised it, before any call, or when the call that
    raised it is an attribute call ([chown], [setrep] or [chmod]): only
    the state step is inside [try ... except HdfsUtilsError]. *)
Theorem uncaught_error_from_attribute_call {B} (ctx : Ctx B) (p : Params) (b : B) (m : string) :
  let '(r, (_, tr)) := run_reconcile ctx p b in
  r = Halt (SRaise (HdfsUtilsError m)) ->
  tr = [] \/ exists c, last_call tr = Some c /\ is_attr_call c = true.
Proof.
  unfold_main. split_all; finish; right; eexists; split; reflexivity.
Qed.

(** With the CLI context, creating a directory whose [-mkdir -p] command
    fails ends the run with [fail_json], the message
    ["subprocess mkdir stderr: "] followed by the command's standard
    error; no other call is made. *)
Theorem cli_mkdir_failure_reported {B} (cmd : string)
  (exec : list string -> B -> (Z * string * string) * B) (p : Params) (b b' : B)
  (s : Status) (rc : Z) (out err : string)
  (Hs : cli_stats cmd exec (p_path p) b = POk s)
  (Hold : st_state s = "absent") (Hnew : p_state p = "directory")
  (Hx : exec (mkdir_cmd cmd (p_path p) true) b = ((rc, out, err), b')) (Hrc : rc <> 0%Z) :
  run_reconcile (HdfsContextCli cmd exec) p b =
    (Halt (SFail ("subprocess mkdir stderr: " ++ err)), (b, [CMkdir (p_path p) true])).
Proof.
  unfold_main. cbn [HdfsContextCli ctx_stats ctx_mkdir]. rewrite Hs, Hold, Hnew.
  cbn -[mkdir_cmd]. unfold run_checked. rewrite Hx. apply Z.eqb_neq in Hrc. rewrite Hrc.
  reflexivity.
Qed.

(** The group call [main] makes, [chown(path, group=g, recurse=...)],
    reaches the CLI as [-chown :g] (with [-R] when [recurse] is truthy),
    for a non-empty group [g]. *)
Theorem cli_group_chown_cmd (cmd path g : string) (recurse : option string) (Hg : g <> "") :
  chown_cmd cmd path None (Some g) recurse =
    ([cmd; "dfs"; "-chown"] ++ (if py_truthy recurse then ["-R"] else [])
     ++ [(":" ++ g)%string; path])%list.
Proof.
  unfold chown_cmd, chown_target. cbn.
  destruct g as [|c g']; [contradiction|]. cbn.
  destruct (py_truthy recurse); reflexivity.
Qed.

(** [chmod] and [chown] put [-R] right after the subcommand exactly when
    [recurse] is a non-empty string, whatever the string says ("False" and
    "no" included). *)
Theorem recurse_flag_nonempty (cmd path m : string) (owner group recurse : option string) :
  let R := match recurse with Some r => negb (String.eqb r "") | None => false end in
  chmod_cmd cmd path m recurse =
    ([cmd; "dfs"; "-chmod"] ++ (if R then ["-R"] else []) ++ [m; path])%list /\
  chown_cmd cmd path owner group recurse =
    ([cmd; "dfs"; "-chown"] ++ (if R then ["-R"] else [])
     ++ [chown_target owner group; path])%list.
Proof.
  cbn zeta. unfold chmod_cmd, chown_cmd.
  destruct recurse as [[|c r]|]; split; reflexivity.
Qed.

Lemma has_char_lstrip (c : ascii) (s : string) :
  has_char c s = false -> has_char c (lstrip s) = false.
Proof.
  induction s as [|d s IH]; cbn; [reflexivity|].
  intros H. apply orb_false_iff in H as [H1 H2].
  destruct (is_ws d); [auto|cbn; rewrite H1, H2; reflexivity].
Qed.

Lemma has_char_rstrip (c : ascii) (s : string) :
  has_char c s = false -> has_char c (rstrip s) = false.
Proof.
  induction s as [|d s IH]; cbn; [reflexivity|].
  intros H. apply orb_false_iff in H as [H1 H2].
  destruct (String.eqb (rstrip s) "" && is_ws d); [reflexivity|].
  cbn. rewrite H1, (IH H2). reflexivity.
Qed.

Lemma prefix_sep_other (c : ascii) (s : string) :
  c <> "["%char -> String.prefix "[SEP]" (String c s) = false.
Proof.
  intros E. cbn [String.prefix]. destruct (Ascii.ascii_dec "[" c) as [E'|];
    [congruence|reflexivity].
Qed.

Lemma split_no_lbrack (s cur : string) :
  has_char "[" s = false -> split_go "[SEP]" s 0 cur = [cur ++ s].
Proof.
  revert cur; induction s as [|c s IH]; intros cur H; cbn [split_go has_char] in *.
  - rewrite str_app_nil_r. reflexivity.
  - apply orb_false_iff in H as [H1 H2].
    rewrite prefix_sep_other by (intros ->; discriminate).
    rewrite (IH _ H2), str_app_assoc. reflexivity.
Qed.

(** When the [-stat] query succeeds but prints no ["["] (so no [[SEP]]),
    [stats] raises [IndexError]: the split gives one field where four are
    read. *)
Theorem stats_no_separator_index_error (out : string) (Hout : has_char "[" out = false) :
  stats_of_output 0 out = PRaise IndexError.
Proof.
  unfold stats_of_output. cbn [Z.eqb negb].
  unfold py_split, py_strip.
  rewrite (split_no_lbrack _ _ (has_char_rstrip _ _ (has_char_lstrip _ _ Hout))).
  reflexivity.
Qed.


Lemma completed_run_changed_iff_calls_witness :
  fst (run_reconcile mem_ctx ex_dir None) = Halt (SExit true) /\
  negb (Nat.eqb (length (snd (snd (run_reconcile mem_ctx ex_dir None)))) 0) = true.
Proof.
  split; [vm_compute; reflexivity|].
  pose proof (completed_run_changed_iff_calls mem_ctx ex_dir None) as T.
  vm_compute in T. vm_compute. exact (T true eq_refl).
Defined.

Lemma check_mode_context_frame_witness :
  run_reconcile (neutralize mem_ctx) ex_dir None =
    (Halt (SExit true),
     (None, [CMkdir "/tmp/myfolder" true; CChown "/tmp/myfolder" (Some "myuser") None None;
             CChown "/tmp/myfolder" None (Some "mygroup") None;
             CSetrep "/tmp/myfolder" (Some "2")])).
Proof.
  pose proof (check_mode_context_frame mem_ctx ex_dir None) as T.
  vm_compute in T. destruct T as [_ T2]. specialize (T2 true _ _ eq_refl).
  vm_compute. reflexivity.
Defined.

Lemma uncaught_error_from_attribute_call_witness :
  fst (run_reconcile mem_ctx ex_badrep (Some (mkEntry KDirectory "hdfs" "supergroup" 0)))
    = Halt (SRaise (HdfsUtilsError "setrep: Illegal replication")) /\
  (snd (snd (run_reconcile mem_ctx ex_badrep (Some (mkEntry KDirectory "hdfs" "supergroup" 0))))
     = [] \/
   exists c, last_call (snd (snd (run_reconcile mem_ctx ex_badrep
                                     (Some (mkEntry KDirectory "hdfs" "supergroup" 0)))))
             = Some c /\ is_attr_call c = true).
Proof.
  split; [vm_compute; reflexivity|].
  pose proof (uncaught_error_from_attribute_call mem_ctx ex_badrep
                (Some (mkEntry KDirectory "hdfs" "supergroup" 0))
                "setrep: Illegal replication") as T.
  vm_compute in T. vm_compute. exact (T eq_refl).
Defined.

Lemma cli_mkdir_failure_reported_witness :
  cli_stats "/bin/hdfs" ex_exec_denied "/tmp/myfolder" tt = POk stats_absent /\
  run_reconcile (HdfsContextCli "/bin/hdfs" ex_exec_denied) ex_dir tt =
    (Halt (SFail "subprocess mkdir stderr: mkdir: Permission denied"),
     (tt, [CMkdir "/tmp/myfolder" true])).
Proof.
  split; [reflexivity|].
  exact (cli_mkdir_failure_reported "/bin/hdfs" ex_exec_denied ex_dir tt tt stats_absent 1 ""
           "mkdir: Permission denied" eq_refl eq_refl eq_refl eq_refl ltac:(discriminate)).
Defined.

Lemma cli_group_chown_cmd_witness :
  "mygroup" <> "" /\
  chown_cmd "/bin/hdfs" "/tmp/f" None (Some "mygroup") (Some "true") =
    ["/bin/hdfs"; "dfs"; "-chown"; "-R"; ":mygroup"; "/tmp/f"].
Proof.
  split; [discriminate|].
  exact (cli_group_chown_cmd "/bin/hdfs" "/tmp/f" "mygroup" (Some "true") ltac:(discriminate)).
Defined.

Lemma stats_no_separator_index_error_witness :
  has_char "[" ("No such file" ++ String (ascii_of_nat 10) "") = false /\
  stats_of_output 0 ("No such file" ++ String (ascii_of_nat 10) "") = PRaise IndexError.
Proof.
  split; [reflexivity|].
  apply stats_no_separator_index_error. reflexivity.
Defined.

